(** * go-yaml, internal/libyaml/errors.go: structured load errors

    A shallow embedding of the error types of [internal/libyaml/errors.go]
    and of the Go library functions they call ([strings.Builder],
    [strings.Join], [fmt]'s [%d] and [%s] verbs, [errors.Is], [recover]),
    followed by the properties of their formatting, matching and recovery
    behaviour.

    Conventions
    - Go [int] is [Z]; the code only stores, compares and prints these
      integers, it never does arithmetic on them.
    - Go [string] is [string] (a sequence of bytes).
    - A non-nil pointer is an address together with the value it points to;
      pointer equality is equality of addresses.
    - A value of interface type [error] is [option errval]: [None] is the
      nil interface.
    - A call that can panic returns a [result]. *)

From Stdlib Require Import String Ascii List ZArith Lia Bool.
From Stdlib Require Import DecimalString.
Import ListNotations.
Open Scope string_scope.

(* ================================================================= *)
(** ** Go runtime and library primitives *)

Module Go.

(** The line feed written ["\n"] in Go string literals. *)
Definition nl : string := String (ascii_of_nat 10) EmptyString.

(** [fmt]'s [%d] verb on an [int]. *)
Definition fmt_d (n : Z) : string := NilZero.string_of_int (Z.to_int n).

(** [strings.Builder]: the text written so far. *)
Definition Builder := string.
Definition WriteString (b : Builder) (s : string) : Builder := b ++ s.

(** [strings.Join(elems, sep)]:
    0 elements give [""], 1 element gives [elems[0]], otherwise
    [elems[0]] is written and then [sep] and [s] for each later [s]. *)
Definition Join (elems : list string) (sep : string) : string :=
  match elems with
  | [] => ""
  | [s] => s
  | s0 :: rest =>
      fold_left (fun b s => WriteString (WriteString b sep) s) rest
                (WriteString "" s0)
  end.

(** A Go call either returns a value or panics at run time (here only
    by dereferencing nil). *)
Inductive result (A : Type) : Type :=
| Ok (a : A)
| NilDeref.
Arguments Ok {A} a.
Arguments NilDeref {A}.

(** Heap addresses. *)
Definition ptr := nat.

(** A non-nil pointer [*T]. *)
Record ref (T : Type) : Type := Ref { addr : ptr; deref : T }.
Arguments Ref {T} addr deref.
Arguments addr {T} r.
Arguments deref {T} r.

End Go.
Import Go.

(* ================================================================= *)
(** ** Data model *)

(** [type Stage string] and its constants. *)
Definition Stage := string.
Definition ReaderStage : Stage := "reader".
Definition ScannerStage : Stage := "scanner".
Definition ParserStage : Stage := "parser".
Definition ComposerStage : Stage := "composer".
Definition ResolverStage : Stage := "resolver".
Definition ConstructorStage : Stage := "constructor".

(** [Mark]: the struct is declared outside errors.go; errors_test.go builds
    it as [Mark{Line, Column, Index}], three [int] fields. *)
Module Mark.
Record t : Type := mk { Index : Z; Line : Z; Column : Z }.

(** Go's [==] on the struct: field by field. *)
Definition eqb (a b : t) : bool :=
  (Index a =? Index b)%Z && (Line a =? Line b)%Z && (Column a =? Column b)%Z.
End Mark.

Module LoadError.
(** [E] is the type of non-nil error values, defined below. *)
Record t (E : Type) : Type := mk {
  Stage : Stage;
  Message : string;
  Mark : Mark.t;
  ContextMark : Mark.t;
  ContextMsg : string;
  Err : option E
}.
Arguments mk {E}.
Arguments Stage {E} e : rename.
Arguments Message {E} e : rename.
Arguments Mark {E} e : rename.
Arguments ContextMark {E} e : rename.
Arguments ContextMsg {E} e : rename.
Arguments Err {E} e : rename.
End LoadError.

Module ConstructError.
Record t (E : Type) : Type := mk { Err : option E; Line : Z; Column : Z }.
Arguments mk {E}.
Arguments Err {E} e : rename.
Arguments Line {E} e : rename.
Arguments Column {E} e : rename.
End ConstructError.

Module TypeError.
Record t : Type := mk { Errors : list string }.
End TypeError.

Module YAMLError.
Record t (E : Type) : Type := mk { Err : option E }.
Arguments mk {E}.
Arguments Err {E} e : rename.
End YAMLError.

Module LoadErrors.
Record t (E : Type) : Type := mk { Errors : list (ref (LoadError.t E)) }.
Arguments mk {E}.
Arguments Errors {E} e : rename.
End LoadErrors.

(** The dynamic type of an error value, and what identifies the value
    among those of its type: the address for a pointer, a number standing
    for the value otherwise. *)
Inductive dyn_type : Type :=
| errorString_type | LoadError_type | ConstructError_type
| LoadErrors_type | TypeError_type | YAMLError_type
| foreign_type (id : nat).

Definition identity : Type := dyn_type * nat.

(** An error of any other type: of another package, or a value-typed
    error such as [WriterError] and [EmitterError].  It is given by what
    [errors.Is], [==] and [Error()] observe of it: its dynamic type and
    whether that type is comparable, its value up to [==], the result of
    [Error()] (which may panic), its [Is(target)] method if it declares
    one (deciding on the type and identity of the target), and its
    [Unwrap() error] or [Unwrap() []error] method if it declares one. *)
Module Foreign.
Inductive unwrap (E : Type) : Type :=
| NoUnwrap
| UnwrapError (e : option E)
| UnwrapErrors (es : list (option E)).
Arguments NoUnwrap {E}.
Arguments UnwrapError {E} e.
Arguments UnwrapErrors {E} es.

Record t (E : Type) : Type := mk {
  type_id : nat;
  value_id : nat;
  comparable : bool;
  Error : result string;
  Is : option (identity -> bool);
  Unwrap : unwrap E
}.
Arguments mk {E}.
Arguments type_id {E} f : rename.
Arguments value_id {E} f : rename.
Arguments comparable {E} f : rename.
Arguments Error {E} f : rename.
Arguments Is {E} f : rename.
Arguments Unwrap {E} f : rename.
End Foreign.

Set Warnings "-register-all".

(** The non-nil values of interface type [error]: the value made by
    [errors.New], non-nil pointers to the load-side error structs of this
    file, and the errors of any other type. *)
Inductive errval : Type :=
| errorString (p : ptr) (s : string)
| LoadErrorPtr (p : ptr) (e : LoadError.t errval)
| ConstructErrorPtr (p : ptr) (e : ConstructError.t errval)
| LoadErrorsPtr (p : ptr) (e : LoadErrors.t errval)
| TypeErrorPtr (p : ptr) (e : TypeError.t)
| YAMLErrorPtr (p : ptr) (e : YAMLError.t errval)
| foreignError (f : Foreign.t errval).

(** The interface type [error]. *)
Definition error := option errval.

(** [Mark]'s methods are declared outside errors.go and are parameters of
    the development: [Mark_String] is what [fmt]'s [%s] verb prints for a
    [Mark], [Mark_shortString] and [Mark_rangeString] are the single-point
    and the two-mark renderings called by [LoadError.Error]. *)
Class MarkMethods : Type := {
  Mark_String : Mark.t -> string;
  Mark_shortString : Mark.t -> string;
  Mark_rangeString : Mark.t -> Mark.t -> string
}.

(* ================================================================= *)
(** ** LoadError *)

Section LoadErrorMethods.
Context {M : MarkMethods} {E : Type}.

(** [func (e *LoadError) Error() string] *)
Definition LoadError_Error (e : LoadError.t E) : string :=
  let builder : Builder := "" in
  let builder := WriteString builder "go-yaml Load error: " in
  let builder := WriteString builder (LoadError.Message e) in
  let builder := WriteString builder (nl ++ "  in ") in
  let builder := WriteString builder (LoadError.Stage e) in
  if (0 <? String.length (LoadError.ContextMsg e))%nat then
    let builder := WriteString builder " (" in
    let builder := WriteString builder (LoadError.ContextMsg e) in
    let builder := WriteString builder ") at " in
    WriteString builder
      (Mark_rangeString (LoadError.ContextMark e) (LoadError.Mark e))
  else
    let builder := WriteString builder " at " in
    WriteString builder (Mark_shortString (LoadError.Mark e)).

(** [func (e *LoadError) simpleError() string];
    [Fprintf(&builder, f, ...)] appends the formatted text. *)
Definition LoadError_simpleError (e : LoadError.t E) : string :=
  let builder : Builder := "" in
  let builder :=
    if (0 <? String.length (LoadError.ContextMsg e))%nat then
      WriteString builder
        (LoadError.ContextMsg e ++ " at "
           ++ Mark_String (LoadError.ContextMark e) ++ ": ")
    else builder in
  let builder :=
    if (String.length (LoadError.ContextMsg e) =? 0)%nat
       || negb (Mark.eqb (LoadError.ContextMark e) (LoadError.Mark e))
    then
      if (0 <? Mark.Line (LoadError.Mark e))%Z then
        WriteString builder
          ("line " ++ fmt_d (Mark.Line (LoadError.Mark e)) ++ ": ")
      else WriteString builder "<unknown position>: "
    else builder in
  WriteString builder (LoadError.Message e).

(** [func (e *LoadError) Unwrap() error] *)
Definition LoadError_Unwrap (e : LoadError.t E) : option E :=
  LoadError.Err e.

End LoadErrorMethods.

(* ================================================================= *)
(** ** TypeError, LoadErrors.Error *)

(** [func (e *TypeError) Error() string]; [%s] prints a string as it is. *)
Definition TypeError_Error (e : TypeError.t) : string :=
  "yaml: unmarshal errors:" ++ nl ++ "  "
    ++ Join (TypeError.Errors e) (nl ++ "  ").

Section LoadErrorsError.
Context {M : MarkMethods} {E : Type}.

(** [func (e *LoadErrors) Error() string] *)
Definition LoadErrors_Error (e : LoadErrors.t E) : string :=
  let b : Builder := "" in
  let b := WriteString b "yaml: construct errors:" in
  fold_left
    (fun b err =>
       let b := WriteString b (nl ++ "  ") in
       WriteString b (LoadError_simpleError (deref err)))
    (LoadErrors.Errors e) b.

End LoadErrorsError.

(* ================================================================= *)
(** ** The Error method of every error value *)

Section ErrorBodies.
(** The dynamic call [x.Error()] on an interface value. *)
Variable call_Error : errval -> result string.

(** [func (e *ConstructError) Error() string]:
    [fmt.Sprintf("line %d: %s", e.Line, e.Err.Error())]; calling a method
    on the nil interface panics. *)
Definition ConstructError_Error_body (e : ConstructError.t errval)
  : result string :=
  match ConstructError.Err e with
  | None => NilDeref
  | Some c =>
      match call_Error c with
      | Ok m => Ok ("line " ++ fmt_d (ConstructError.Line e) ++ ": " ++ m)
      | NilDeref => NilDeref
      end
  end.

(** [func (e *YAMLError) Error() string]: [e.Err.Error()]. *)
Definition YAMLError_Error_body (e : YAMLError.t errval) : result string :=
  match YAMLError.Err e with
  | None => NilDeref
  | Some c => call_Error c
  end.
End ErrorBodies.

Section DynamicError.
Context {M : MarkMethods}.

(** Method dispatch of [Error()] on the dynamic type. *)
Fixpoint Error (v : errval) : result string :=
  match v with
  | errorString _ s => Ok s
  | LoadErrorPtr _ e => Ok (LoadError_Error e)
  | ConstructErrorPtr _ e => ConstructError_Error_body Error e
  | LoadErrorsPtr _ e => Ok (LoadErrors_Error e)
  | TypeErrorPtr _ e => Ok (TypeError_Error e)
  | YAMLErrorPtr _ e => YAMLError_Error_body Error e
  | foreignError f => Foreign.Error f
  end.

Definition ConstructError_Error := ConstructError_Error_body Error.
Definition YAMLError_Error := YAMLError_Error_body Error.

(** [func (e *ConstructError) Unwrap() error] *)
Definition ConstructError_Unwrap (e : ConstructError.t errval) : error :=
  ConstructError.Err e.

End DynamicError.

(* ================================================================= *)
(** ** errors.Is *)

(** The conversion of a [*LoadError] to [error]. *)
Definition LoadError_as_error (r : ref (LoadError.t errval)) : errval :=
  LoadErrorPtr (addr r) (deref r).

(** The dynamic type and the identity of an error value. *)
Definition identity_of (v : errval) : identity :=
  match v with
  | errorString p _ => (errorString_type, p)
  | LoadErrorPtr p _ => (LoadError_type, p)
  | ConstructErrorPtr p _ => (ConstructError_type, p)
  | LoadErrorsPtr p _ => (LoadErrors_type, p)
  | TypeErrorPtr p _ => (TypeError_type, p)
  | YAMLErrorPtr p _ => (YAMLError_type, p)
  | foreignError f => (foreign_type (Foreign.type_id f), Foreign.value_id f)
  end.

(** [reflectlite.TypeOf(target).Comparable()]: pointer types are
    comparable. *)
Definition comparable_type (v : errval) : bool :=
  match v with
  | foreignError f => Foreign.comparable f
  | _ => true
  end.

(** [a == b] on non-nil interface values of comparable type: the same
    dynamic type and the same pointer or value. *)
Definition same (a b : errval) : bool :=
  match a, b with
  | errorString p _, errorString q _ => Nat.eqb p q
  | LoadErrorPtr p _, LoadErrorPtr q _ => Nat.eqb p q
  | ConstructErrorPtr p _, ConstructErrorPtr q _ => Nat.eqb p q
  | LoadErrorsPtr p _, LoadErrorsPtr q _ => Nat.eqb p q
  | TypeErrorPtr p _, TypeErrorPtr q _ => Nat.eqb p q
  | YAMLErrorPtr p _, YAMLErrorPtr q _ => Nat.eqb p q
  | foreignError f, foreignError g =>
      Nat.eqb (Foreign.type_id f) (Foreign.type_id g)
      && Nat.eqb (Foreign.value_id f) (Foreign.value_id g)
  | _, _ => false
  end.

Section IsBodies.
(** The next turn of the loop of [errors.is], on the unwrapped error. *)
Variable call_is : errval -> errval -> bool.

(** [errors.is(err, target, targetComparable)] for [err] a [*LoadError]:
    [targetComparable && err == target]; no [Is] method; [Unwrap() error]
    gives [e.Err], nil ends the loop. *)
Definition is_LoadError (r : ref (LoadError.t errval)) (target : errval)
  : bool :=
  if comparable_type target && same (LoadError_as_error r) target then true
  else match LoadError_Unwrap (deref r) with
       | None => false
       | Some c => call_is c target
       end.

(** The loop of [func (e *LoadErrors) Is(target error) bool] for a
    non-nil [target]. *)
Definition LoadErrors_Is_body (e : LoadErrors.t errval) (target : errval)
  : bool :=
  existsb (fun err => is_LoadError err target) (LoadErrors.Errors e).
End IsBodies.

(** The [Is] method of an error of another type, if it declares one. *)
Definition foreign_Is (f : Foreign.t errval) (target : errval) : bool :=
  match Foreign.Is f with
  | Some accepts => accepts (identity_of target)
  | None => false
  end.

(** [errors.is(err, target, targetComparable)] (Go 1.20 and later): what
    [err] unwraps to is finite, the loop is a recursion on it.  In each
    turn: [targetComparable && err == target]; then the [Is] method of
    [err], if any; then [Unwrap() error], where nil ends the loop, or
    [Unwrap() []error], whose errors are tried in order, a nil one giving
    false.  Of the types of this file only [*LoadErrors] has an [Is]
    method, only [*LoadError] and [*ConstructError] have [Unwrap]. *)
Fixpoint is_ (err target : errval) {struct err} : bool :=
  if comparable_type target && same err target then true
  else
    match err with
    | LoadErrorsPtr _ e => LoadErrors_Is_body is_ e target
    | LoadErrorPtr _ e =>
        match LoadError_Unwrap e with
        | None => false
        | Some c => is_ c target
        end
    | ConstructErrorPtr _ e =>
        match ConstructError_Unwrap e with
        | None => false
        | Some c => is_ c target
        end
    | errorString _ _ | TypeErrorPtr _ _ | YAMLErrorPtr _ _ => false
    | foreignError f =>
        if foreign_Is f target then true
        else
          match Foreign.Unwrap f with
          | Foreign.NoUnwrap => false
          | Foreign.UnwrapError None => false
          | Foreign.UnwrapError (Some c) => is_ c target
          | Foreign.UnwrapErrors es =>
              existsb (fun o => match o with
                                | Some c => is_ c target
                                | None => false
                                end) es
          end
    end.

(** [errors.Is(err, target)] *)
Definition errors_Is (err target : error) : bool :=
  match err, target with
  | Some e, Some t => is_ e t
  | None, None => true           (* err == target *)
  | _, _ => false
  end.

(** [func (e *LoadErrors) Is(target error) bool] *)
Definition LoadErrors_Is (e : LoadErrors.t errval) (target : error) : bool :=
  existsb (fun err => errors_Is (Some (LoadError_as_error err)) target)
          (LoadErrors.Errors e).

(** The errors visited by the loop of [errors.is]: [err], what
    [err.Unwrap()] gives, and so on. *)
Fixpoint chain (err : errval) : list errval :=
  err ::
  match err with
  | LoadErrorPtr _ e =>
      match LoadError_Unwrap e with Some c => chain c | None => [] end
  | ConstructErrorPtr _ e =>
      match ConstructError_Unwrap e with Some c => chain c | None => [] end
  | foreignError f =>
      match Foreign.Unwrap f with
      | Foreign.NoUnwrap => []
      | Foreign.UnwrapError None => []
      | Foreign.UnwrapError (Some c) => chain c
      | Foreign.UnwrapErrors es =>
          flat_map (fun o => match o with
                             | Some c => chain c
                             | None => []
                             end) es
      end
  | _ => []
  end.

(** What one turn of the loop of [errors.is] asks of the error [x] it
    visits: [targetComparable && x == target], or the [Is] method of [x],
    which of the types of this file only [*LoadErrors] has. *)
Definition answers (x target : errval) : bool :=
  comparable_type target && same x target
  || match x with
     | LoadErrorsPtr _ a => LoadErrors_Is a (Some target)
     | foreignError f => foreign_Is f target
     | _ => false
     end.

(* ================================================================= *)
(** ** LoadErrors.As *)

(** The dynamic type of the [target any] given to [As]; the target is a
    non-nil pointer to a variable of the caller. *)
Inductive target : Type :=
| toLoadError                 (* **LoadError *)
| toConstructError            (* **ConstructError *)
| toTypeError                 (* **TypeError *)
| toOther (T : string).       (* any other type, by name *)

(** What [*t = ...] stores in the caller's variable.  [&ConstructError{}]
    and [&TypeError{}] are fresh pointers, given by what they point to. *)
Inductive stored : Type :=
| LoadErrorVar (p : ref (LoadError.t errval))
| ConstructErrorVar (c : ConstructError.t errval)
| TypeErrorVar (t : TypeError.t).

Section As.
Context {M : MarkMethods}.

(** [func (e *LoadErrors) As(target any) bool]: the assignment through
    [t], if any, and the returned boolean. *)
Definition LoadErrors_As (e : LoadErrors.t errval) (t : target)
  : option stored * bool :=
  match t with
  | toLoadError =>
      match LoadErrors.Errors e with
      | [] => (None, false)                 (* len(e.Errors) == 0 *)
      | first :: _ => (Some (LoadErrorVar first), true)
      end
  | toConstructError =>
      match LoadErrors.Errors e with
      | [] => (None, false)
      | first :: _ =>
          (Some (ConstructErrorVar
             {| ConstructError.Err := LoadError.Err (deref first);
                ConstructError.Line := Mark.Line (LoadError.Mark (deref first));
                ConstructError.Column :=
                  Mark.Column (LoadError.Mark (deref first)) |}),
           true)
      end
  | toTypeError =>
      let msgs : list string :=
        fold_left
          (fun msgs err => (msgs ++ [LoadError_simpleError (deref err)])%list)
          (LoadErrors.Errors e) [] in
      (Some (TypeErrorVar {| TypeError.Errors := msgs |}), true)
  | toOther _ => (None, false)
  end.
End As.

(* ================================================================= *)
(** ** Panics and handleErr *)

(** The values a panic carries (interface type [any]). *)
Inductive any : Type :=
| any_error (v : errval)            (* one of the error values above *)
| any_string (s : string)           (* as in [panic("...")] *)
| any_runtime_Error (msg : string)  (* raised by the run time *)
| any_nil_YAMLError.                (* the nil pointer of type *YAMLError *)

(** The panic of the run time for a nil pointer dereference. *)
Definition nil_dereference : any :=
  any_runtime_Error "invalid memory address or nil pointer dereference".

(** A function activation at the time its deferred calls run: the named
    result [err] and the panic in flight, if any. *)
Record frame : Type := Frame { err : error; panicking : option any }.

(** [recover()] in a deferred call: gives the panic value and stops the
    panic; nil when there is none. *)
Definition recover (f : frame) : option any * frame :=
  (panicking f, {| err := err f; panicking := None |}).

(** [func handleErr(err *error)], deferred with [&err]. *)
Definition handleErr (f : frame) : frame :=
  match recover f with
  | (Some v, f) =>
      match v with
      | any_error (YAMLErrorPtr _ e) =>          (* v is a *YAMLError *)
          {| err := YAMLError.Err e; panicking := panicking f |}
      | any_nil_YAMLError =>          (* a *YAMLError too: e.Err panics *)
          {| err := err f; panicking := Some nil_dereference |}
      | _ => {| err := err f; panicking := Some v |}   (* panic(v) *)
      end
  | (None, f) => f
  end.

(** How an activation ends for its caller. *)
Inductive exit : Type :=
| Return (err : error)
| Panic (v : any).

Definition finish (f : frame) : exit :=
  match panicking f with
  | Some v => Panic v
  | None => Return (err f)
  end.

(** Internal pipeline code: it returns a value or panics; a panic passes
    through every activation that does not recover. *)
Inductive comp (A : Type) : Type :=
| ret (a : A)
| panic (v : any).
Arguments ret {A} a.
Arguments panic {A} v.

Definition bind {A B : Type} (m : comp A) (k : A -> comp B) : comp B :=
  match m with
  | ret a => k a
  | panic v => panic v
  end.

Notation "x <- m ;; k" := (bind m (fun x => k))
  (at level 61, m at next level, right associativity).

(** A public entry point
    [func F(...) (err error) { defer handleErr(&err); return body }]:
    [err] is nil until the body returns. *)
Definition entry_point (body : comp error) : exit :=
  finish (handleErr
            match body with
            | ret r => {| err := r; panicking := None |}
            | panic v => {| err := None; panicking := Some v |}
            end).

(** [v] is a [*YAMLError]. *)
Definition is_YAMLError (v : any) : bool :=
  match v with
  | any_error (YAMLErrorPtr _ _) => true
  | any_nil_YAMLError => true
  | _ => false
  end.

(** The claim of the spec for [simpleError], as it is worded: the context
    prefix exactly when the context mark differs from the primary mark,
    then always the line (or unknown position) part, then the message. *)
Definition simpleFormat_as_specified {M : MarkMethods} {E : Type}
    (e : LoadError.t E) : string :=
  (if negb (Mark.eqb (LoadError.ContextMark e) (LoadError.Mark e))
   then LoadError.ContextMsg e ++ " at "
          ++ Mark_String (LoadError.ContextMark e) ++ ": "
   else "")
  ++ (if (0 <? Mark.Line (LoadError.Mark e))%Z
      then "line " ++ fmt_d (Mark.Line (LoadError.Mark e)) ++ ": "
      else "<unknown position>: ")
  ++ LoadError.Message e.

(** The line part of [simpleError]. *)
Definition position_part (m : Mark.t) : string :=
  if (0 <? Mark.Line m)%Z then "line " ++ fmt_d (Mark.Line m) ++ ": "
  else "<unknown position>: ".

(** Modelled from the spec: [Mark.shortString], declared outside
    errors.go.  Spec 4.1: single-point text, e.g. "line L, column C". *)
Definition spec_shortString (m : Mark.t) : string :=
  "line " ++ fmt_d (Mark.Line m) ++ ", column " ++ fmt_d (Mark.Column m).

(** Modelled from the spec: [Mark]'s methods, declared outside errors.go,
    for the closed examples below.  Spec 4.1: [rangeString] is two-point
    "from-to" text when the marks differ and collapses to the single-point
    text when they are equal; [%s] is taken to print the single-point
    text.  Every general theorem holds for all [MarkMethods]. *)
Definition spec_MarkMethods : MarkMethods :=
  {| Mark_String := spec_shortString;
     Mark_shortString := spec_shortString;
     Mark_rangeString a b :=
       if Mark.eqb a b then spec_shortString a
       else spec_shortString a ++ " to " ++ spec_shortString b |}.

(* ================================================================= *)
(** ** Sample values *)

(** Scenario A of the spec: a parser-stage error without context. *)
Definition scenario_A {E : Type} : LoadError.t E :=
  {| LoadError.Stage := ParserStage;
     LoadError.Message := "bad indentation";
     LoadError.Mark := {| Mark.Index := 40; Mark.Line := 4; Mark.Column := 2 |};
     LoadError.ContextMark := {| Mark.Index := 0; Mark.Line := 0; Mark.Column := 0 |};
     LoadError.ContextMsg := "";
     LoadError.Err := None |}.

(** A constructor-stage error, as errors_test.go builds them, with an
    optional context. *)
Definition sample_error (line : Z) (msg : string) (ctx : string)
    (ctx_line : Z) (cause : error) : LoadError.t errval :=
  {| LoadError.Stage := ConstructorStage;
     LoadError.Message := msg;
     LoadError.Mark := {| Mark.Index := 0; Mark.Line := line; Mark.Column := 0 |};
     LoadError.ContextMark :=
       {| Mark.Index := 0; Mark.Line := ctx_line; Mark.Column := 0 |};
     LoadError.ContextMsg := ctx;
     LoadError.Err := cause |}.

(** A context whose mark is the primary mark. *)
Definition same_mark_context : LoadError.t errval :=
  sample_error 3 "oops" "while decoding" 3 None.

(** Scenario B and C of the spec: two faults, on lines 1 and 3. *)
Definition two_faults : LoadErrors.t errval :=
  {| LoadErrors.Errors :=
       [ Ref 1 (sample_error 1 "missing field" "" 0
                  (Some (errorString 2 "missing field")));
         Ref 3 (sample_error 3 "wrong type" "" 0
                  (Some (errorString 4 "wrong type"))) ] |}.

(** Two errors made by [errors.New] with the same text, and an aggregate
    whose only element has the first as its cause. *)
Definition boom_cause : errval := errorString 2 "boom".
Definition boom_target : errval := errorString 3 "boom".
Definition boom_element : ref (LoadError.t errval) :=
  Ref 1 (sample_error 1 "boom" "" 0 (Some boom_cause)).
Definition boom_errors : LoadErrors.t errval :=
  {| LoadErrors.Errors := [boom_element] |}.

(* ================================================================= *)
(** ** The emitter-side errors *)

Module EmitterError.
Record t : Type := mk { Message : string }.
End EmitterError.

Module WriterError.
Record t : Type := mk { Err : error }.
End WriterError.


Section EmitterSide.
Context {M : MarkMethods}.





End EmitterSide.

(* ================================================================= *)
(** ** Auxiliary notions for the further properties *)

(** Following [Err] through [*ConstructError] and [*YAMLError] values, the
    two whose [Error()] calls [e.Err.Error()], ends in a nil [Err]. *)
Fixpoint hollow (v : errval) : bool :=
  match v with
  | ConstructErrorPtr _ e =>
      match ConstructError.Err e with
      | None => true
      | Some c => hollow c
      end
  | YAMLErrorPtr _ e =>
      match YAMLError.Err e with
      | None => true
      | Some c => hollow c
      end
  | _ => false
  end.

(** A call of a function inside a body: its return value, or its panic
    going on in the caller. *)
Definition call (x : exit) : comp error :=
  match x with
  | Return r => ret r
  | Panic v => panic v
  end.

(** One line of an aggregate for an element without context on a known
    line: the format of the test data of errors_test.go. *)
Definition plain_line {E : Type} (err : ref (LoadError.t E)) : string :=
  nl ++ "  line " ++ fmt_d (Mark.Line (LoadError.Mark (deref err))) ++ ": "
     ++ LoadError.Message (deref err).

(** An aggregate inside an aggregate: the only element of the outer one
    has [boom_errors] as its cause. *)
Definition nested_errors : LoadErrors.t errval :=
  {| LoadErrors.Errors :=
       [Ref 7 (sample_error 2 "nested" "" 0
                 (Some (LoadErrorsPtr 8 boom_errors)))] |}.

(* ================================================================= *)
(** ** Facts about strings and loops *)

Lemma append_assoc (a b c : string) : (a ++ b) ++ c = a ++ (b ++ c).
Proof. induction a as [|x a IH]; simpl; [reflexivity | now rewrite IH]. Qed.

(** Both sides are the same pieces appended in the same order. *)
Ltac same_pieces :=
  repeat progress (rewrite ?append_assoc; cbn [append]); reflexivity.

Lemma append_nil_r (a : string) : a ++ "" = a.
Proof. induction a as [|x a IH]; simpl; [reflexivity | now rewrite IH]. Qed.

Lemma length_append (a b : string) :
  String.length (a ++ b) = String.length a + String.length b.
Proof. induction a as [|x a IH]; simpl; [reflexivity | now rewrite IH]. Qed.

Lemma length_pos_iff (s : string) :
  (0 <? String.length s)%nat = true <-> s <> "".
Proof.
  destruct s; simpl; split; intro H; try discriminate; try reflexivity.
  now elim H.
Qed.

Lemma Mark_eqb_eq (a b : Mark.t) : Mark.eqb a b = true <-> a = b.
Proof.
  destruct a as [i l c], b as [i' l' c']; unfold Mark.eqb; simpl.
  rewrite !andb_true_iff, !Z.eqb_eq. split.
  - intros [[-> ->] ->]; reflexivity.
  - intros H; injection H; auto.
Qed.

Lemma Mark_eqb_neq (a b : Mark.t) : Mark.eqb a b = false <-> a <> b.
Proof.
  rewrite <- Mark_eqb_eq. destruct (Mark.eqb a b); split; intro H;
    congruence.
Qed.

Lemma concat_empty_cons (a : string) (l : list string) :
  String.concat "" (a :: l) = a ++ String.concat "" l.
Proof. destruct l; simpl; [now rewrite append_nil_r | reflexivity]. Qed.

(** A loop that writes one piece for every element writes the
    concatenation of the pieces after what was there. *)
Lemma fold_write {A : Type} (piece : A -> string) (l : list A) (b : string) :
  fold_left (fun b x => b ++ piece x) l b
  = b ++ String.concat "" (map piece l).
Proof.
  revert b; induction l as [|x l IH]; intro b.
  - simpl. now rewrite append_nil_r.
  - cbn [fold_left map]. now rewrite IH, concat_empty_cons, append_assoc.
Qed.

Lemma concat_cons (sep x : string) (l : list string) :
  String.concat sep (x :: l)
  = x ++ String.concat "" (map (fun s => sep ++ s) l).
Proof.
  revert x; induction l as [|y l IH]; intro x.
  - simpl. now rewrite append_nil_r.
  - change (String.concat sep (x :: y :: l))
      with (x ++ sep ++ String.concat sep (y :: l)).
    cbn [map]. now rewrite IH, concat_empty_cons, append_assoc.
Qed.

(** The loop of [strings.Join]. *)
Lemma Join_loop (sep : string) (rest : list string) (b : Builder) :
  fold_left (fun b s => WriteString (WriteString b sep) s) rest b
  = b ++ String.concat "" (map (fun s => sep ++ s) rest).
Proof.
  revert b; induction rest as [|s rest IH]; intro b.
  - simpl. now rewrite append_nil_r.
  - cbn [fold_left map]. unfold WriteString at 2 3.
    now rewrite IH, concat_empty_cons, !append_assoc.
Qed.

(** [strings.Join] is the separator-joined concatenation. *)
Lemma Join_concat (elems : list string) (sep : string) :
  Join elems sep = String.concat sep elems.
Proof.
  destruct elems as [|s0 rest]; [reflexivity|].
  rewrite concat_cons. destruct rest as [|s1 rest].
  - simpl. now rewrite append_nil_r.
  - unfold Join. now rewrite Join_loop.
Qed.

Lemma fold_append_map {A B : Type} (f : A -> B) (l : list A) (acc : list B) :
  fold_left (fun acc x => (acc ++ [f x])%list) l acc = (acc ++ map f l)%list.
Proof.
  revert acc; induction l as [|x l IH]; intro acc; simpl.
  - now rewrite app_nil_r.
  - rewrite IH, <- app_assoc. reflexivity.
Qed.

(* ================================================================= *)
(** ** TypeError.Error (C9) *)

(** C9.  The rendering of a [TypeError] is "yaml: unmarshal errors:\n  "
    followed by its messages joined by "\n  ", in order; for the empty
    message list it is that prefix alone. *)
Theorem TypeError_Error_format :
  forall e : TypeError.t,
    TypeError_Error e
    = "yaml: unmarshal errors:" ++ nl ++ "  "
        ++ String.concat (nl ++ "  ") (TypeError.Errors e)
    /\ TypeError_Error {| TypeError.Errors := [] |}
       = "yaml: unmarshal errors:" ++ nl ++ "  ".
Proof.
  intro e; split.
  - unfold TypeError_Error. now rewrite Join_concat.
  - reflexivity.
Qed.

(* ================================================================= *)
(** ** LoadErrors.Error (C7) *)

(** C7.  The rendering of a [LoadErrors] is the header
    "yaml: construct errors:" followed by one piece "\n  " ++ simpleError()
    per element, in the order of the elements: the pieces are the image of
    the element list, so none is moved, dropped or merged, and one more
    element adds exactly its piece at the end. *)
Theorem LoadErrors_Error_format :
  forall (M : MarkMethods) (E : Type) (e : LoadErrors.t E),
    LoadErrors_Error e
    = "yaml: construct errors:"
        ++ String.concat ""
             (map (fun err => nl ++ "  " ++ LoadError_simpleError (deref err))
                  (LoadErrors.Errors e))
    /\ forall last : ref (LoadError.t E),
         LoadErrors_Error
           {| LoadErrors.Errors := (LoadErrors.Errors e ++ [last])%list |}
         = LoadErrors_Error e
             ++ nl ++ "  " ++ LoadError_simpleError (deref last).
Proof.
  intros M E e.
  assert (loop : forall (l : list (ref (LoadError.t E))) (b : Builder),
             fold_left
               (fun b err =>
                  let b := WriteString b (nl ++ "  ") in
                  WriteString b (LoadError_simpleError (deref err))) l b
             = b ++ String.concat ""
                      (map (fun err =>
                              nl ++ "  " ++ LoadError_simpleError (deref err))
                           l)).
  { induction l as [|x l IH]; intro b.
    - simpl. now rewrite append_nil_r.
    - cbn [fold_left map]. rewrite IH, concat_empty_cons.
      unfold WriteString. now rewrite !append_assoc. }
  split.
  - unfold LoadErrors_Error. rewrite loop. reflexivity.
  - intro last. unfold LoadErrors_Error. cbn [LoadErrors.Errors].
    rewrite fold_left_app. cbn [fold_left]. unfold WriteString at 1 2.
    now rewrite !append_assoc.
Qed.

(* ================================================================= *)
(** ** LoadError.simpleError (C5) *)

(** C5, as worded, fails: with a context message and a context mark equal
    to the primary mark the code writes the context prefix and no line
    part, where the claim has no prefix and "line 3: ". *)
Lemma simpleError_same_mark_context :
  LoadError_simpleError (M := spec_MarkMethods) same_mark_context
  = "while decoding at line 3, column 0: oops"
  /\ simpleFormat_as_specified (M := spec_MarkMethods) same_mark_context
     = "line 3: oops"
  /\ LoadError_simpleError (M := spec_MarkMethods) same_mark_context
     <> simpleFormat_as_specified (M := spec_MarkMethods) same_mark_context.
Proof.
  split; [reflexivity | split; [reflexivity | discriminate]].
Qed.

(** C5, amended.  [simpleError] writes the prefix
    "<ContextMsg> at <ContextMark>: " exactly when a context message is set;
    then, when no context message is set or the context mark differs from
    the primary mark, "line <N>: " for a line above 0 and
    "<unknown position>: " otherwise, and nothing when the context mark is
    the primary mark; then the message as it is. *)
Theorem simpleError_format :
  forall (M : MarkMethods) (E : Type) (e : LoadError.t E),
    (LoadError.ContextMsg e = "" ->
       LoadError_simpleError e
       = position_part (LoadError.Mark e) ++ LoadError.Message e)
    /\ (LoadError.ContextMsg e <> "" ->
        LoadError.ContextMark e <> LoadError.Mark e ->
          LoadError_simpleError e
          = LoadError.ContextMsg e ++ " at "
              ++ Mark_String (LoadError.ContextMark e) ++ ": "
              ++ position_part (LoadError.Mark e) ++ LoadError.Message e)
    /\ (LoadError.ContextMsg e <> "" ->
        LoadError.ContextMark e = LoadError.Mark e ->
          LoadError_simpleError e
          = LoadError.ContextMsg e ++ " at "
              ++ Mark_String (LoadError.ContextMark e) ++ ": "
              ++ LoadError.Message e).
Proof.
  intros M E e. unfold LoadError_simpleError, position_part, WriteString.
  repeat split.
  - intros ->. simpl. now destruct (0 <? _)%Z.
  - intros Hmsg Hmark.
    apply length_pos_iff in Hmsg. rewrite Hmsg.
    apply Mark_eqb_neq in Hmark. rewrite Hmark, orb_true_r.
    cbn [negb]. destruct (0 <? _)%Z; same_pieces.
  - intros Hmsg Hmark.
    pose proof Hmsg as Hpos. apply length_pos_iff in Hpos. rewrite Hpos.
    apply Mark_eqb_eq in Hmark. rewrite Hmark.
    destruct (LoadError.ContextMsg e) as [|c s]; [now elim Hmsg|].
    cbn [String.length Nat.eqb negb orb]. same_pieces.
Qed.

Lemma simpleError_format_witness :
  LoadError_simpleError (M := spec_MarkMethods)
    (sample_error 1 "missing field" "" 0 None)
  = "line 1: missing field"
  /\ LoadError_simpleError (M := spec_MarkMethods)
       (sample_error 0 "wrong type" "in mapping" 2 None)
     = "in mapping at line 2, column 0: <unknown position>: wrong type"
  /\ LoadError_simpleError (M := spec_MarkMethods) same_mark_context
     = "while decoding at line 3, column 0: oops".
Proof.
  split; [|split].
  - apply (proj1 (simpleError_format spec_MarkMethods errval
                    (sample_error 1 "missing field" "" 0 None))).
    reflexivity.
  - apply (proj1 (proj2 (simpleError_format spec_MarkMethods errval
                    (sample_error 0 "wrong type" "in mapping" 2 None)))).
    + simpl; discriminate.
    + simpl; discriminate.
  - apply (proj2 (proj2 (simpleError_format spec_MarkMethods errval
                    same_mark_context))).
    + simpl; discriminate.
    + reflexivity.
Defined.

(* ================================================================= *)
(** ** LoadError.Error (C6) *)

(** C6, as worded, fails on its own example: the code writes
    "go-yaml Load error: " with a capital L, so the text of scenario A is
    "<namespace> load error: bad indentation..." for no namespace. *)
Lemma LoadError_Error_scenario_A_capital :
  LoadError_Error (M := spec_MarkMethods) (E := errval) scenario_A
  = "go-yaml Load error: bad indentation" ++ nl
      ++ "  in parser at line 4, column 2"
  /\ ~ exists namespace : string,
         LoadError_Error (M := spec_MarkMethods) (E := errval) scenario_A
         = namespace ++ " load error: bad indentation" ++ nl
             ++ "  in parser at line 4, column 2".
Proof.
  split; [reflexivity|].
  intros [ns H].
  assert (Hlen : String.length ns = 7).
  { apply (f_equal String.length) in H.
    rewrite length_append in H.
    match type of H with
    | ?a = _ + ?b =>
        let a' := eval vm_compute in a in
        let b' := eval vm_compute in b in
        change a with a' in H; change b with b' in H
    end.
    lia. }
  do 7 (destruct ns as [|? ns]; [discriminate Hlen|]).
  destruct ns; [|discriminate Hlen].
  vm_compute in H. discriminate H.
Qed.

(** C6, amended.  [Error()] is "go-yaml Load error: <message>\n  in <stage>"
    (capital L, namespace "go-yaml") followed, when a context message is
    set, by " (<context message>) at " and the range rendering of
    (context mark, mark), and otherwise by " at " and the single-point
    rendering of the mark; where that rendering of scenario A's mark is
    "line 4, column 2", scenario A gives
    "go-yaml Load error: bad indentation\n  in parser at line 4, column 2". *)
Theorem LoadError_Error_format :
  forall (M : MarkMethods) (E : Type) (e : LoadError.t E),
    (LoadError.ContextMsg e <> "" ->
       LoadError_Error e
       = "go-yaml Load error: " ++ LoadError.Message e ++ nl ++ "  in "
           ++ LoadError.Stage e
           ++ " (" ++ LoadError.ContextMsg e ++ ") at "
           ++ Mark_rangeString (LoadError.ContextMark e) (LoadError.Mark e))
    /\ (LoadError.ContextMsg e = "" ->
          LoadError_Error e
          = "go-yaml Load error: " ++ LoadError.Message e ++ nl ++ "  in "
              ++ LoadError.Stage e
              ++ " at " ++ Mark_shortString (LoadError.Mark e))
    /\ (Mark_shortString (LoadError.Mark (E := E) scenario_A)
          = "line 4, column 2" ->
        LoadError_Error (E := E) scenario_A
        = "go-yaml Load error: bad indentation" ++ nl
            ++ "  in parser at line 4, column 2").
Proof.
  intros M E e. unfold LoadError_Error, WriteString. repeat split.
  - intro Hmsg. apply length_pos_iff in Hmsg. rewrite Hmsg. same_pieces.
  - intros ->. cbn [String.length Nat.ltb Nat.leb]. same_pieces.
  - intro Hpoint.
    cbn [scenario_A LoadError.ContextMsg String.length Nat.ltb Nat.leb].
    rewrite Hpoint. reflexivity.
Qed.

Lemma LoadError_Error_format_witness :
  LoadError_Error (M := spec_MarkMethods)
    (sample_error 5 "bad value" "while decoding" 2 None)
  = "go-yaml Load error: bad value" ++ nl
      ++ "  in constructor (while decoding) at line 2, column 0 to line 5, column 0"
  /\ LoadError_Error (M := spec_MarkMethods)
       (sample_error 5 "bad value" "" 0 None)
     = "go-yaml Load error: bad value" ++ nl
         ++ "  in constructor at line 5, column 0"
  /\ LoadError_Error (M := spec_MarkMethods) (E := errval) scenario_A
     = "go-yaml Load error: bad indentation" ++ nl
         ++ "  in parser at line 4, column 2".
Proof.
  split; [|split].
  - apply (proj1 (LoadError_Error_format spec_MarkMethods errval
                    (sample_error 5 "bad value" "while decoding" 2 None))).
    simpl; discriminate.
  - apply (proj1 (proj2 (LoadError_Error_format spec_MarkMethods errval
                    (sample_error 5 "bad value" "" 0 None)))).
    reflexivity.
  - apply (proj2 (proj2 (LoadError_Error_format spec_MarkMethods errval
                    scenario_A))).
    reflexivity.
Defined.

(* ================================================================= *)
(** ** LoadError.Unwrap (C8) *)

(** C8.  [Unwrap()] returns nil exactly when no cause is set; otherwise it
    returns the cause itself, and nothing but the cause, so that the
    message of what it returns is the message of the cause. *)
Theorem LoadError_Unwrap_cause :
  forall (M : MarkMethods) (e : LoadError.t errval),
    (LoadError_Unwrap e = None <-> LoadError.Err e = None)
    /\ (forall cause : errval,
          LoadError.Err e = Some cause -> LoadError_Unwrap e = Some cause)
    /\ (forall unwrapped : errval,
          LoadError_Unwrap e = Some unwrapped ->
          LoadError.Err e = Some unwrapped)
    /\ (forall cause unwrapped : errval,
          LoadError.Err e = Some cause ->
          LoadError_Unwrap e = Some unwrapped ->
          Error unwrapped = Error cause).
Proof.
  intros M e. unfold LoadError_Unwrap. repeat split; auto.
  intros cause unwrapped Hc Hu. rewrite Hc in Hu.
  injection Hu as <-. reflexivity.
Qed.

Lemma LoadError_Unwrap_cause_witness :
  LoadError_Unwrap (sample_error 1 "oops" "" 0 (Some (errorString 9 "boom")))
  = Some (errorString 9 "boom")
  /\ Error (M := spec_MarkMethods) (errorString 9 "boom") = Ok "boom".
Proof.
  pose proof (LoadError_Unwrap_cause spec_MarkMethods
                (sample_error 1 "oops" "" 0 (Some (errorString 9 "boom"))))
    as [_ [Hsome [_ Hmsg]]].
  split.
  - apply Hsome. reflexivity.
  - exact (eq_trans (Hmsg (errorString 9 "boom") (errorString 9 "boom")
                             eq_refl eq_refl) eq_refl).
Defined.

(* ================================================================= *)
(** ** ConstructError.Error (C10) *)

(** C10, as worded, fails for a [ConstructError] without a cause, which
    [LoadErrors.As] builds from a first element without a cause: calling
    [e.Err.Error()] on the nil interface panics, no text is returned. *)
Lemma ConstructError_Error_nil_cause :
  ConstructError_Error (M := spec_MarkMethods)
    {| ConstructError.Err := None;
       ConstructError.Line := 7;
       ConstructError.Column := 0 |}
  = NilDeref
  /\ fst (LoadErrors_As (M := spec_MarkMethods)
            {| LoadErrors.Errors := [Ref 1 (sample_error 7 "oops" "" 0 None)] |}
            toConstructError)
     = Some (ConstructErrorVar
               {| ConstructError.Err := None;
                  ConstructError.Line := 7;
                  ConstructError.Column := 0 |}).
Proof. split; reflexivity. Qed.

(** C10, amended.  For a [ConstructError] whose cause is set and has the
    message [m], [Error()] returns "line <Line>: " followed by [m]; the
    Column field never affects the result. *)
Theorem ConstructError_Error_format :
  forall (M : MarkMethods) (e : ConstructError.t errval),
    (forall (cause : errval) (m : string),
        ConstructError.Err e = Some cause ->
        Error cause = Ok m ->
        ConstructError_Error e
        = Ok ("line " ++ fmt_d (ConstructError.Line e) ++ ": " ++ m))
    /\ (forall column : Z,
          ConstructError_Error
            {| ConstructError.Err := ConstructError.Err e;
               ConstructError.Line := ConstructError.Line e;
               ConstructError.Column := column |}
          = ConstructError_Error e).
Proof.
  intros M e. split.
  - intros cause m Hc Hm.
    unfold ConstructError_Error, ConstructError_Error_body.
    now rewrite Hc, Hm.
  - intro column. reflexivity.
Qed.

Lemma ConstructError_Error_format_witness :
  ConstructError_Error (M := spec_MarkMethods)
    {| ConstructError.Err := Some (errorString 9 "wrong type");
       ConstructError.Line := 3;
       ConstructError.Column := 5 |}
  = Ok "line 3: wrong type".
Proof.
  apply (proj1 (ConstructError_Error_format spec_MarkMethods
                  {| ConstructError.Err := Some (errorString 9 "wrong type");
                     ConstructError.Line := 3;
                     ConstructError.Column := 5 |})
           (errorString 9 "wrong type") "wrong type");
    reflexivity.
Defined.

(* ================================================================= *)
(** ** LoadErrors.As (C2, C3) *)

(** The message list built by the [**TypeError] case. *)
Lemma As_TypeError_messages (M : MarkMethods) (e : LoadErrors.t errval) :
  LoadErrors_As e toTypeError
  = (Some (TypeErrorVar
             {| TypeError.Errors :=
                  map (fun err => LoadError_simpleError (deref err))
                      (LoadErrors.Errors e) |}),
     true).
Proof.
  unfold LoadErrors_As.
  now rewrite (fold_append_map (fun err => LoadError_simpleError (deref err))).
Qed.

(** C2.  On a non-empty [LoadErrors], [As] with a [**LoadError] target
    stores element 0 and returns true; with a [**ConstructError] target it
    stores a value with the cause of element 0 and the line and column of
    its mark and returns true; with a [**TypeError] target it stores one
    message per element, the i-th being the [simpleError()] of element i,
    and returns true; with any other target it stores nothing and returns
    false. *)
Theorem LoadErrors_As_nonempty :
  forall (M : MarkMethods) (e : LoadErrors.t errval),
    LoadErrors.Errors e <> [] ->
    exists first : ref (LoadError.t errval),
      nth_error (LoadErrors.Errors e) 0 = Some first
      /\ LoadErrors_As e toLoadError = (Some (LoadErrorVar first), true)
      /\ (exists c : ConstructError.t errval,
             LoadErrors_As e toConstructError
             = (Some (ConstructErrorVar c), true)
             /\ ConstructError.Err c = LoadError.Err (deref first)
             /\ ConstructError.Line c = Mark.Line (LoadError.Mark (deref first))
             /\ ConstructError.Column c
                = Mark.Column (LoadError.Mark (deref first)))
      /\ (exists t : TypeError.t,
             LoadErrors_As e toTypeError = (Some (TypeErrorVar t), true)
             /\ List.length (TypeError.Errors t)
                = List.length (LoadErrors.Errors e)
             /\ forall (i : nat) (err : ref (LoadError.t errval)),
                  nth_error (LoadErrors.Errors e) i = Some err ->
                  nth_error (TypeError.Errors t) i
                  = Some (LoadError_simpleError (deref err)))
      /\ forall T : string, LoadErrors_As e (toOther T) = (None, false).
Proof.
  intros M [errors] Hne. cbn [LoadErrors.Errors] in *.
  destruct errors as [|first rest]; [now elim Hne|].
  exists first. split; [reflexivity|]. split; [reflexivity|].
  split; [|split].
  - eexists. split; [reflexivity|]. repeat split.
  - eexists. split; [apply As_TypeError_messages|].
    cbn [TypeError.Errors LoadErrors.Errors]. split.
    + apply length_map.
    + intros i err Hi.
      now rewrite nth_error_map, Hi.
  - reflexivity.
Qed.

Lemma LoadErrors_As_nonempty_witness :
  exists first : ref (LoadError.t errval),
    nth_error (LoadErrors.Errors two_faults) 0 = Some first
    /\ LoadErrors_As (M := spec_MarkMethods) two_faults toLoadError
       = (Some (LoadErrorVar first), true).
Proof.
  destruct (LoadErrors_As_nonempty spec_MarkMethods two_faults)
    as [first [H0 [H1 _]]].
  - simpl; discriminate.
  - exists first. split; assumption.
Defined.

(** C3.  On the empty [LoadErrors], [As] with a [**TypeError] target stores
    a [TypeError] with no message and returns true, while with a
    [**LoadError] or a [**ConstructError] target it stores nothing and
    returns false. *)
Theorem LoadErrors_As_empty :
  forall M : MarkMethods,
    LoadErrors_As {| LoadErrors.Errors := [] |} toTypeError
    = (Some (TypeErrorVar {| TypeError.Errors := [] |}), true)
    /\ LoadErrors_As {| LoadErrors.Errors := [] |} toLoadError
       = (None, false)
    /\ LoadErrors_As {| LoadErrors.Errors := [] |} toConstructError
       = (None, false).
Proof. intro M. repeat split. Qed.

(* ================================================================= *)
(** ** LoadErrors.Is (C4) *)

(** [errors.is] succeeds when some error of the chain answers. *)
Lemma is_chain : forall err target : errval,
  is_ err target = existsb (fun x => answers x target) (chain err).
Proof.
  fix IH 1. intros err target.
  destruct err as [p s | p e | p e | p e | p e | p e | f];
    cbn [is_ chain existsb]; unfold answers at 1;
    destruct (comparable_type target && same _ target);
    try reflexivity; cbn [orb].
  - unfold LoadError_Unwrap. destruct e as [st msg mk cmk cmsg [c|]];
      cbn [LoadError.Err]; [apply IH | reflexivity].
  - unfold ConstructError_Unwrap. destruct e as [[c|] l col];
      cbn [ConstructError.Err]; [apply IH | reflexivity].
  - now rewrite orb_false_r.
  - destruct (foreign_Is f target); [reflexivity|]. cbn [orb].
    destruct f as [ti vi cmp er im [ | [c|] | es]]; cbn [Foreign.Unwrap];
      [reflexivity | apply IH | reflexivity | ].
    revert es. fix inner 1. intro es.
    destruct es as [|[c|] es]; cbn [existsb flat_map].
    + reflexivity.
    + now rewrite existsb_app, <- (IH c target), <- (inner es).
    + apply inner.
Qed.

(** C4, as worded, fails: the cause of the only element has the message
    of the target, but it is another error value and [Is] returns false;
    and [Is] returns true for the element itself as target, whose message
    is not the message of the cause. *)
Lemma LoadErrors_Is_same_text_no_match :
  LoadErrors_Is boom_errors (Some boom_target) = false
  /\ (exists (err : ref (LoadError.t errval)) (cause : errval),
         In err (LoadErrors.Errors boom_errors)
         /\ LoadError.Err (deref err) = Some cause
         /\ Error (M := spec_MarkMethods) cause
            = Error (M := spec_MarkMethods) boom_target)
  /\ LoadErrors_Is boom_errors (Some (LoadError_as_error boom_element)) = true
  /\ Error (M := spec_MarkMethods) boom_cause
     <> Error (M := spec_MarkMethods) (LoadError_as_error boom_element).
Proof.
  split; [reflexivity|]. split.
  - exists boom_element, boom_cause. repeat split. now left.
  - split; [reflexivity | discriminate].
Qed.

(** C4, amended.  [Is] succeeds if and only if the target is not nil and,
    for at least one element, some error on the chain of the element (the
    element itself, its cause, the cause of its cause, ...) is the same
    error value as the target (Go's [==]: same dynamic type and pointer)
    or is an aggregate whose own [Is] accepts the target. *)
Theorem LoadErrors_Is_chain :
  forall (e : LoadErrors.t errval) (tgt : error),
    LoadErrors_Is e tgt = true
    <-> exists (t : errval) (err : ref (LoadError.t errval)) (x : errval),
          tgt = Some t
          /\ In err (LoadErrors.Errors e)
          /\ In x (chain (LoadError_as_error err))
          /\ answers x t = true.
Proof.
  intros e tgt. unfold LoadErrors_Is. rewrite existsb_exists. split.
  - intros [err [Hin His]]. destruct tgt as [t|]; [|discriminate His].
    cbn [errors_Is] in His. rewrite is_chain, existsb_exists in His.
    destruct His as [x [Hx Hans]]. now exists t, err, x.
  - intros [t [err [x [-> [Hin [Hx Hans]]]]]].
    exists err. split; [assumption|].
    cbn [errors_Is]. rewrite is_chain, existsb_exists. now exists x.
Qed.

(* ================================================================= *)
(** ** handleErr (C1) *)

(** C1.  Whatever the named result holds when the deferred [handleErr]
    runs: if a panic with a [*YAMLError] carrying [P] is in flight, the
    function returns normally with [err = P]; if a panic with any other
    value is in flight, that same value is raised again; if no panic is in
    flight, [err] is returned as it was.  So an entry point never ends by
    a panic carrying a [*YAMLError], and a [*YAMLError] panic raised three
    calls below an entry point makes it return the payload (scenario D). *)
Theorem handleErr_boundary :
  forall slot : error,
    (forall (p : ptr) (w : YAMLError.t errval),
        finish (handleErr
                  {| err := slot;
                     panicking := Some (any_error (YAMLErrorPtr p w)) |})
        = Return (YAMLError.Err w))
    /\ (forall v : any,
          is_YAMLError v = false ->
          finish (handleErr {| err := slot; panicking := Some v |})
          = Panic v)
    /\ finish (handleErr {| err := slot; panicking := None |}) = Return slot
    /\ (forall (body : comp error) (v : any),
          entry_point body = Panic v -> is_YAMLError v = false)
    /\ (forall (p : ptr) (w : YAMLError.t errval)
               (k1 k2 k3 : error -> comp error),
          entry_point
            (r1 <- (r2 <- (r3 <- panic (any_error (YAMLErrorPtr p w)) ;;
                           k3 r3) ;;
                    k2 r2) ;;
             k1 r1)
          = Return (YAMLError.Err w)).
Proof.
  intro slot. split; [reflexivity|]. split; [|split; [reflexivity|split]].
  - intros v Hv. destruct v as [[] | | |]; try reflexivity; discriminate Hv.
  - intros body v. unfold entry_point.
    destruct body as [r | [[] | | |]]; cbn; intro H;
      try discriminate H; injection H as <-; reflexivity.
  - reflexivity.
Qed.

Lemma handleErr_boundary_witness :
  finish (handleErr
            {| err := None;
               panicking := Some (any_runtime_Error "index out of range") |})
  = Panic (any_runtime_Error "index out of range")
  /\ is_YAMLError (any_string "unreachable") = false.
Proof.
  destruct (handleErr_boundary None) as [_ [Hother [_ [Hexit _]]]].
  split.
  - apply Hother. reflexivity.
  - apply (Hexit (panic (any_string "unreachable"))). reflexivity.
Defined.

(* ================================================================= *)
(** ** Further properties of LoadErrors.Is and errors.Is *)



(** A value of a type that is not comparable and declares no [Is] method
    is not found by [errors.is], not even in itself; with an [Is] method
    that accepts the target it is. *)
Lemma is_uncomparable (ti vi : nat) (er : result string)
    (im : option (identity -> bool)) (t : errval) :
  let v := foreignError
             {| Foreign.type_id := ti; Foreign.value_id := vi;
                Foreign.comparable := false; Foreign.Error := er;
                Foreign.Is := im; Foreign.Unwrap := Foreign.NoUnwrap |} in
  is_ v v = match im with
            | Some accepts => accepts (foreign_type ti, vi)
            | None => false
            end.
Proof. cbn. unfold foreign_Is. cbn. now destruct im as [a|]; [destruct (a _)|]. Qed.

(** One turn of the loop for a [*LoadError]. *)
Lemma is_LoadError_step (r : ref (LoadError.t errval)) (t : errval) :
  is_ (LoadError_as_error r) t
  = comparable_type t && same (LoadError_as_error r) t
    || errors_Is (LoadError.Err (deref r)) (Some t).
Proof.
  unfold LoadError_as_error. cbn [is_]. unfold LoadError_Unwrap.
  destruct (comparable_type t && same _ _); [reflexivity|]. cbn [orb].
  now destruct (LoadError.Err (deref r)).
Qed.



(** X2.  [Is] rejects every target on the empty aggregate, and rejects
    the nil target on every aggregate. *)
Theorem LoadErrors_Is_empty_or_nil :
  forall (e : LoadErrors.t errval) (tgt : error),
    LoadErrors_Is {| LoadErrors.Errors := [] |} tgt = false
    /\ LoadErrors_Is e None = false.
Proof.
  intros [errors] tgt. split; [reflexivity|].
  unfold LoadErrors_Is. cbn [LoadErrors.Errors].
  induction errors as [|r errors IH]; [reflexivity|].
  cbn [existsb errors_Is]. exact IH.
Qed.

(** X3.  [Is] on the elements of two aggregates put one after the other
    is the disjunction of [Is] on each: more elements never lose a match,
    and the order of the elements does not matter. *)
Theorem LoadErrors_Is_app :
  forall (a b : list (ref (LoadError.t errval))) (tgt : error),
    LoadErrors_Is {| LoadErrors.Errors := (a ++ b)%list |} tgt
    = LoadErrors_Is {| LoadErrors.Errors := a |} tgt
      || LoadErrors_Is {| LoadErrors.Errors := b |} tgt
    /\ LoadErrors_Is {| LoadErrors.Errors := (a ++ b)%list |} tgt
       = LoadErrors_Is {| LoadErrors.Errors := (b ++ a)%list |} tgt.
Proof.
  intros a b tgt. unfold LoadErrors_Is. cbn [LoadErrors.Errors].
  rewrite !existsb_app. split; [reflexivity | apply orb_comm].
Qed.

(** X4.  An aggregate that is the cause of an element is asked too: what
    the inner aggregate accepts, the outer one accepts. *)
Theorem LoadErrors_Is_nested :
  forall (outer inner : LoadErrors.t errval)
         (err : ref (LoadError.t errval)) (p : ptr) (t : errval),
    In err (LoadErrors.Errors outer) ->
    LoadError.Err (deref err) = Some (LoadErrorsPtr p inner) ->
    LoadErrors_Is inner (Some t) = true ->
    LoadErrors_Is outer (Some t) = true.
Proof.
  intros outer inner err p t Hin Hcause Hinner.
  unfold LoadErrors_Is. apply existsb_exists. exists err.
  split; [assumption|]. cbn [errors_Is].
  rewrite is_LoadError_step, Hcause. cbn [errors_Is is_].
  destruct (comparable_type t && same (LoadErrorsPtr p inner) t);
    [apply orb_true_r|].
  change (LoadErrors_Is_body is_ inner t) with (LoadErrors_Is inner (Some t)).
  rewrite Hinner. apply orb_true_r.
Qed.

Lemma LoadErrors_Is_nested_witness :
  LoadErrors_Is nested_errors (Some boom_cause) = true.
Proof.
  apply (LoadErrors_Is_nested nested_errors boom_errors
           (Ref 7 (sample_error 2 "nested" "" 0
                     (Some (LoadErrorsPtr 8 boom_errors)))) 8 boom_cause).
  - left; reflexivity.
  - reflexivity.
  - reflexivity.
Defined.

(** X5.  [*YAMLError] and [*TypeError] declare neither [Unwrap] nor [Is]:
    [errors.Is] on one of them accepts only that same pointer, never the
    payload of the wrapper. *)
Theorem errors_Is_stops_at_YAMLError :
  forall (p : ptr) (w : YAMLError.t errval) (m : TypeError.t) (t : errval),
    (errors_Is (Some (YAMLErrorPtr p w)) (Some t) = true
     <-> exists w' : YAMLError.t errval, t = YAMLErrorPtr p w')
    /\ (errors_Is (Some (TypeErrorPtr p m)) (Some t) = true
        <-> exists m' : TypeError.t, t = TypeErrorPtr p m').
Proof.
  intros p w m t. cbn [errors_Is is_]. split; split.
  - destruct t; cbn [comparable_type same andb]; rewrite ?andb_false_r;
      try discriminate.
    destruct (Nat.eqb_spec p p0); [subst; eauto | discriminate].
  - intros [w' ->]. cbn [comparable_type same andb]. now rewrite Nat.eqb_refl.
  - destruct t; cbn [comparable_type same andb]; rewrite ?andb_false_r;
      try discriminate.
    destruct (Nat.eqb_spec p p0); [subst; eauto | discriminate].
  - intros [m' ->]. cbn [comparable_type same andb]. now rewrite Nat.eqb_refl.
Qed.

(** X6.  What [errors.Is] finds through the [ConstructError] that [As]
    stores, apart from that [ConstructError] itself, [Is] finds on the
    aggregate. *)
Theorem ConstructError_view_Is :
  forall (M : MarkMethods) (e : LoadErrors.t errval)
         (v : ConstructError.t errval) (q : ptr) (t : errval),
    fst (LoadErrors_As e toConstructError) = Some (ConstructErrorVar v) ->
    same (ConstructErrorPtr q v) t = false ->
    errors_Is (Some (ConstructErrorPtr q v)) (Some t) = true ->
    LoadErrors_Is e (Some t) = true.
Proof.
  intros M [errors] v q t Hview Hother His.
  destruct errors as [|first rest]; [discriminate Hview|].
  cbn in Hview. injection Hview as <-.
  cbn [errors_Is is_] in His. rewrite Hother, andb_false_r in His.
  unfold ConstructError_Unwrap in His. cbn [ConstructError.Err] in His.
  unfold LoadErrors_Is. cbn [LoadErrors.Errors existsb errors_Is].
  rewrite is_LoadError_step.
  destruct (LoadError.Err (deref first)) as [c|]; [|discriminate His].
  cbn [errors_Is]. rewrite His. now rewrite orb_true_r.
Qed.

Lemma ConstructError_view_Is_witness :
  LoadErrors_Is boom_errors (Some boom_cause) = true.
Proof.
  apply (ConstructError_view_Is spec_MarkMethods boom_errors
           {| ConstructError.Err := Some boom_cause;
              ConstructError.Line := 1;
              ConstructError.Column := 0 |} 9 boom_cause);
    reflexivity.
Defined.

(* ================================================================= *)
(** ** Further properties of the renderings *)

(** The loop of [LoadErrors.Error]. *)
Lemma LoadErrors_Error_loop (M : MarkMethods) (E : Type)
    (l : list (ref (LoadError.t E))) (b : Builder) :
  fold_left
    (fun b err =>
       let b := WriteString b (nl ++ "  ") in
       WriteString b (LoadError_simpleError (deref err))) l b
  = b ++ String.concat ""
           (map (fun err => (nl ++ "  ") ++ LoadError_simpleError (deref err))
                l).
Proof.
  revert b; induction l as [|x l IH]; intro b.
  - simpl. now rewrite append_nil_r.
  - cbn [fold_left map]. rewrite IH, concat_empty_cons.
    unfold WriteString. now rewrite !append_assoc.
Qed.

Lemma LoadErrors_Error_pieces (M : MarkMethods) (E : Type)
    (e : LoadErrors.t E) :
  LoadErrors_Error e
  = "yaml: construct errors:"
      ++ String.concat ""
           (map (fun err => (nl ++ "  ") ++ LoadError_simpleError (deref err))
                (LoadErrors.Errors e)).
Proof. unfold LoadErrors_Error. now rewrite LoadErrors_Error_loop. Qed.

(** Without a context message [simpleError] is the line part and the
    message. *)
Lemma simpleError_no_context (M : MarkMethods) (E : Type)
    (e : LoadError.t E) :
  LoadError.ContextMsg e = "" ->
  LoadError_simpleError e
  = position_part (LoadError.Mark e) ++ LoadError.Message e.
Proof.
  intro H. unfold LoadError_simpleError, position_part, WriteString.
  rewrite H. simpl. now destruct (0 <? _)%Z.
Qed.

(** X7.  For a non-empty aggregate the [TypeError] that [As] stores reads
    as the aggregate does, under the header "yaml: unmarshal errors:" in
    place of "yaml: construct errors:"; for the empty aggregate the
    [TypeError] text has "\n  " after its header and the aggregate text
    has nothing after its own. *)
Theorem TypeError_view_reads_as_aggregate :
  forall (M : MarkMethods) (e : LoadErrors.t errval),
    exists t : TypeError.t,
      LoadErrors_As e toTypeError = (Some (TypeErrorVar t), true)
      /\ (LoadErrors.Errors e <> [] ->
          exists body : string,
            LoadErrors_Error e = "yaml: construct errors:" ++ body
            /\ TypeError_Error t = "yaml: unmarshal errors:" ++ body)
      /\ (LoadErrors.Errors e = [] ->
          LoadErrors_Error e = "yaml: construct errors:"
          /\ TypeError_Error t = "yaml: unmarshal errors:" ++ nl ++ "  ").
Proof.
  intros M e. eexists. split; [apply As_TypeError_messages|]. split.
  - intro Hne. eexists. split; [apply LoadErrors_Error_pieces|].
    unfold TypeError_Error. cbn [TypeError.Errors].
    rewrite Join_concat.
    destruct (LoadErrors.Errors e) as [|x l]; [now elim Hne|].
    cbn [map]. rewrite concat_cons, concat_empty_cons, map_map.
    same_pieces.
  - intro Hnil. rewrite LoadErrors_Error_pieces.
    unfold TypeError_Error. cbn [TypeError.Errors]. rewrite Hnil.
    split; reflexivity.
Qed.

Lemma TypeError_view_reads_as_aggregate_witness :
  (exists body : string,
      LoadErrors_Error (M := spec_MarkMethods) two_faults
      = "yaml: construct errors:" ++ body
      /\ TypeError_Error
           {| TypeError.Errors :=
                ["line 1: missing field"; "line 3: wrong type"] |}
         = "yaml: unmarshal errors:" ++ body)
  /\ LoadErrors_Error (M := spec_MarkMethods) (E := errval)
       {| LoadErrors.Errors := [] |}
     = "yaml: construct errors:".
Proof.
  split.
  - destruct (TypeError_view_reads_as_aggregate spec_MarkMethods two_faults)
      as [t [Ht [Hne _]]].
    injection Ht as <-. apply Hne. simpl; discriminate.
  - destruct (TypeError_view_reads_as_aggregate spec_MarkMethods
                {| LoadErrors.Errors := [] |}) as [t [_ [_ Hnil]]].
    apply Hnil. reflexivity.
Defined.

(** X8.  When the first element has no context message and its cause has
    the message of the element (as every element built in errors_test.go),
    the [ConstructError] that [As] stores reads "line <Line>: <message>":
    for a line above 0 that is the [simpleError()] of the element, for
    another line it is not, [simpleError()] having "<unknown position>: ". *)
Theorem ConstructError_view_reads_as_first_line :
  forall (M : MarkMethods) (e : LoadErrors.t errval)
         (first : ref (LoadError.t errval)) (cause : errval),
    nth_error (LoadErrors.Errors e) 0 = Some first ->
    LoadError.ContextMsg (deref first) = "" ->
    LoadError.Err (deref first) = Some cause ->
    Error cause = Ok (LoadError.Message (deref first)) ->
    exists v : ConstructError.t errval,
      LoadErrors_As e toConstructError = (Some (ConstructErrorVar v), true)
      /\ ConstructError_Error v
         = Ok ("line " ++ fmt_d (Mark.Line (LoadError.Mark (deref first)))
                 ++ ": " ++ LoadError.Message (deref first))
      /\ ((0 < Mark.Line (LoadError.Mark (deref first)))%Z ->
          ConstructError_Error v = Ok (LoadError_simpleError (deref first)))
      /\ ((Mark.Line (LoadError.Mark (deref first)) <= 0)%Z ->
          ConstructError_Error v <> Ok (LoadError_simpleError (deref first))).
Proof.
  intros M [errors] first cause Hfirst Hctx Hcause Hmsg.
  destruct errors as [|x rest]; [discriminate Hfirst|].
  cbn in Hfirst. injection Hfirst as ->.
  eexists. split; [reflexivity|].
  assert (Hview :
    ConstructError_Error
      {| ConstructError.Err := LoadError.Err (deref first);
         ConstructError.Line := Mark.Line (LoadError.Mark (deref first));
         ConstructError.Column := Mark.Column (LoadError.Mark (deref first)) |}
    = Ok ("line " ++ fmt_d (Mark.Line (LoadError.Mark (deref first)))
            ++ ": " ++ LoadError.Message (deref first))).
  { unfold ConstructError_Error, ConstructError_Error_body.
    cbn [ConstructError.Err ConstructError.Line].
    now rewrite Hcause, Hmsg. }
  split; [exact Hview|]. rewrite Hview.
  rewrite (simpleError_no_context M errval (deref first) Hctx).
  unfold position_part. split.
  - intro Hpos. apply Z.ltb_lt in Hpos. rewrite Hpos.
    f_equal. same_pieces.
  - intro Hneg. apply Z.ltb_ge in Hneg. rewrite Hneg.
    cbn. discriminate.
Qed.

Lemma ConstructError_view_reads_as_first_line_witness :
  exists v : ConstructError.t errval,
    LoadErrors_As (M := spec_MarkMethods) two_faults toConstructError
    = (Some (ConstructErrorVar v), true)
    /\ ConstructError_Error (M := spec_MarkMethods) v
       = Ok "line 1: missing field".
Proof.
  destruct (ConstructError_view_reads_as_first_line spec_MarkMethods
              two_faults
              (Ref 1 (sample_error 1 "missing field" "" 0
                        (Some (errorString 2 "missing field"))))
              (errorString 2 "missing field")
              eq_refl eq_refl eq_refl eq_refl)
    as [v [Hv [Htext _]]].
  exists v. split; [exact Hv | exact Htext].
Defined.

(** X9.  Without a context message, [simpleError()] is determined by the
    line of the mark and the message alone: neither the column, the index,
    the stage, the context mark, the cause nor the methods of [Mark] take
    part in it. *)
Theorem simpleError_line_and_message_only :
  forall (M1 M2 : MarkMethods) (E1 E2 : Type)
         (e1 : LoadError.t E1) (e2 : LoadError.t E2),
    LoadError.ContextMsg e1 = "" ->
    LoadError.ContextMsg e2 = "" ->
    Mark.Line (LoadError.Mark e1) = Mark.Line (LoadError.Mark e2) ->
    LoadError.Message e1 = LoadError.Message e2 ->
    LoadError_simpleError (M := M1) e1 = LoadError_simpleError (M := M2) e2.
Proof.
  intros M1 M2 E1 E2 e1 e2 H1 H2 Hline Hmsg.
  rewrite (simpleError_no_context M1 E1 e1 H1).
  rewrite (simpleError_no_context M2 E2 e2 H2).
  unfold position_part. now rewrite Hline, Hmsg.
Qed.

Lemma simpleError_line_and_message_only_witness :
  LoadError_simpleError (M := spec_MarkMethods)
    (sample_error 4 "bad indentation" "" 9 (Some boom_cause))
  = LoadError_simpleError
      (M := {| Mark_String := fun _ => "";
               Mark_shortString := fun _ => "";
               Mark_rangeString := fun _ _ => "" |})
      (E := errval)
      {| LoadError.Stage := ParserStage;
         LoadError.Message := "bad indentation";
         LoadError.Mark :=
           {| Mark.Index := 40; Mark.Line := 4; Mark.Column := 2 |};
         LoadError.ContextMark :=
           {| Mark.Index := 0; Mark.Line := 0; Mark.Column := 0 |};
         LoadError.ContextMsg := "";
         LoadError.Err := None |}.
Proof.
  apply simpleError_line_and_message_only; reflexivity.
Defined.

(** X10.  An aggregate whose elements all have no context message and a
    line above 0 reads as the header and one "\n  line <Line>: <message>"
    per element, in order. *)
Theorem LoadErrors_Error_plain_lines :
  forall (M : MarkMethods) (E : Type) (e : LoadErrors.t E),
    Forall (fun err : ref (LoadError.t E) =>
              LoadError.ContextMsg (deref err) = ""
              /\ (0 < Mark.Line (LoadError.Mark (deref err)))%Z)
           (LoadErrors.Errors e) ->
    LoadErrors_Error e
    = "yaml: construct errors:"
        ++ String.concat "" (map plain_line (LoadErrors.Errors e)).
Proof.
  intros M E e Hall. rewrite LoadErrors_Error_pieces. do 2 f_equal.
  apply map_ext_in. intros err Hin.
  rewrite Forall_forall in Hall. destruct (Hall err Hin) as [Hctx Hpos].
  rewrite (simpleError_no_context M E (deref err) Hctx).
  unfold position_part, plain_line. apply Z.ltb_lt in Hpos. rewrite Hpos.
  same_pieces.
Qed.

Lemma LoadErrors_Error_plain_lines_witness :
  LoadErrors_Error (M := spec_MarkMethods) two_faults
  = "yaml: construct errors:" ++ nl ++ "  line 1: missing field"
      ++ nl ++ "  line 3: wrong type".
Proof.
  apply (LoadErrors_Error_plain_lines spec_MarkMethods errval two_faults).
  repeat constructor.
Defined.

(* ================================================================= *)
(** ** Which Error() calls panic *)

(** X11.  [Error()] panics on every [*ConstructError] and [*YAMLError]
    from which following [Err] through values of these two types, however
    many, ends in a nil [Err]. *)
Theorem Error_panics_on_hollow :
  forall (M : MarkMethods) (v : errval),
    hollow v = true -> Error v = NilDeref.
Proof.
  intro M. fix IH 1. intro v.
  destruct v as [p s | p e | p e | p e | p e | p e | f]; cbn [Error hollow];
    try discriminate.
  - unfold ConstructError_Error_body.
    destruct e as [[c|] l col]; cbn [ConstructError.Err ConstructError.Line];
      [|reflexivity].
    intro H. now rewrite (IH c H).
  - unfold YAMLError_Error_body.
    destruct e as [[c|]]; cbn [YAMLError.Err]; [apply IH | reflexivity].
Qed.

Lemma Error_panics_on_hollow_witness :
  Error (M := spec_MarkMethods)
    (ConstructErrorPtr 1
       {| ConstructError.Err :=
            Some (YAMLErrorPtr 2
                    {| YAMLError.Err :=
                         Some (ConstructErrorPtr 3
                                 {| ConstructError.Err := None;
                                    ConstructError.Line := 4;
                                    ConstructError.Column := 0 |}) |});
          ConstructError.Line := 7;
          ConstructError.Column := 0 |})
  = NilDeref.
Proof.
  apply (Error_panics_on_hollow spec_MarkMethods). reflexivity.
Defined.

(* ================================================================= *)
(** ** Further properties of handleErr *)

(** X12.  An entry point returns [r] if and only if its body returned
    [r] or panicked with a non-nil [*YAMLError] carrying [r]; it panics
    with [v] if and only if its body panicked with [v] and [v] is no
    [*YAMLError], or its body panicked with the nil [*YAMLError] and [v]
    is the nil dereference that [e.Err] then raises in [handleErr]. *)
Theorem entry_point_inversion :
  forall (body : comp error) (r : error) (v : any),
    (entry_point body = Return r
     <-> body = ret r
         \/ exists (p : ptr) (w : YAMLError.t errval),
              body = panic (any_error (YAMLErrorPtr p w))
              /\ YAMLError.Err w = r)
    /\ (entry_point body = Panic v
        <-> (body = panic v /\ is_YAMLError v = false)
            \/ (body = panic any_nil_YAMLError /\ v = nil_dereference)).
Proof.
  intros body r v. unfold entry_point. split; split.
  - destruct body as [r0 | [[] | | |]]; cbn; intro H;
      try discriminate H; injection H as <-; eauto.
  - intros [-> | [p [w [-> <-]]]]; reflexivity.
  - destruct body as [r0 | [[] | | |]]; cbn; intro H;
      try discriminate H; injection H as <-;
      try (left; split; reflexivity).
    right. split; reflexivity.
  - intros [[-> Hv] | [-> ->]]; [|reflexivity].
    destruct v as [[] | | |]; try reflexivity; discriminate Hv.
Qed.

Lemma entry_point_inversion_witness :
  entry_point (panic any_nil_YAMLError) = Panic nil_dereference
  /\ entry_point (panic (any_string "unreachable"))
     = Panic (any_string "unreachable").
Proof.
  split.
  - apply (proj2 (proj2 (entry_point_inversion (panic any_nil_YAMLError)
                           None nil_dereference))).
    right. split; reflexivity.
  - apply (proj2 (proj2 (entry_point_inversion
                           (panic (any_string "unreachable"))
                           None (any_string "unreachable")))).
    left. split; reflexivity.
Defined.

(** X13.  [handleErr] run a second time changes nothing, and an entry
    point called from the body of another entry point gives the caller
    what it would give alone: the [*YAMLError] it absorbed is not seen
    again, another panic goes through both. *)
Theorem handleErr_idempotent :
  forall (f : frame) (body : comp error),
    handleErr (handleErr f) = handleErr f
    /\ entry_point (call (entry_point body)) = entry_point body.
Proof.
  intros [slot [v|]] body; split; try reflexivity.
  - destruct v as [[] | | |]; reflexivity.
  - destruct body as [r | [[] | | |]]; reflexivity.
  - destruct body as [r | [[] | | |]]; reflexivity.
Qed.

(** X14.  When the [*YAMLError] of a panic carries a cause, the error the
    entry point returns has the message of the [*YAMLError]; when it
    carries nil, its [Error()] panics and the entry point returns the nil
    error. *)
Theorem recovered_error_keeps_message :
  forall (M : MarkMethods) (p : ptr) (w : YAMLError.t errval),
    (forall cause : errval,
        YAMLError.Err w = Some cause ->
        entry_point (panic (any_error (YAMLErrorPtr p w)))
        = Return (Some cause)
        /\ Error cause = Error (YAMLErrorPtr p w))
    /\ (YAMLError.Err w = None ->
        entry_point (panic (any_error (YAMLErrorPtr p w))) = Return None
        /\ Error (YAMLErrorPtr p w) = NilDeref).
Proof.
  intros M p [payload]. cbn [YAMLError.Err]. split.
  - intros cause ->. split; reflexivity.
  - intros ->. split; reflexivity.
Qed.

Lemma recovered_error_keeps_message_witness :
  (entry_point
     (panic (any_error (YAMLErrorPtr 5 {| YAMLError.Err := Some boom_cause |})))
   = Return (Some boom_cause)
   /\ Error (M := spec_MarkMethods) boom_cause
      = Error (M := spec_MarkMethods)
          (YAMLErrorPtr 5 {| YAMLError.Err := Some boom_cause |}))
  /\ (entry_point
        (panic (any_error (YAMLErrorPtr 5 {| YAMLError.Err := None |})))
      = Return None
      /\ Error (M := spec_MarkMethods)
           (YAMLErrorPtr 5 {| YAMLError.Err := None |})
         = NilDeref).
Proof.
  split.
  - apply (proj1 (recovered_error_keeps_message spec_MarkMethods 5
                    {| YAMLError.Err := Some boom_cause |})).
    reflexivity.
  - apply (proj2 (recovered_error_keeps_message spec_MarkMethods 5
                    {| YAMLError.Err := None |})).
    reflexivity.
Defined.

(* ================================================================= *)
(** ** EmitterError and WriterError *)


